(** * node/internal_binding/cares_wrap.ts: the DNS binding of the Node
    compatibility layer, as a shallow embedding.

  The binding exposes [getaddrinfo] and the [ChannelWrap] query methods.
  Each call does a little synchronous work (it starts resolver lookups with
  [Deno.resolveDns]), returns [0], and later, when the lookups have settled,
  hands an error code and the records to [req.oncomplete].

  The embedding keeps that shape: a call yields the events it causes before
  it returns, its completion (a returned number or a raised error) and the
  events of its asynchronous part.  The order in which pending lookups
  settle is not decided by the program; it is an explicit schedule. *)

From Stdlib Require Import List ZArith String Ascii Bool Arith Lia Permutation.
Import ListNotations.

Set Implicit Arguments.

Open Scope string_scope.
Open Scope list_scope.

(** ** The JavaScript side: values, completions, promises *)

Module Js.

(** Untyped values handed to a callback declared with [any]. *)
#[warnings="-register-all"]
Inductive Value : Type :=
| Str (s : string)
| Num (n : Z)
| Arr (items : list Value)
| Obj (fields : list (string * Value)).

(** How a synchronous call ends. *)
Inductive Completion (T : Type) : Type :=
| Return (v : T)
| Throw (message : string).
Arguments Throw {T} message.

(** [Array.prototype.sort(comparefn)].  The algorithm belongs to the engine;
    what every engine does is rearrange the elements of the array. *)
Class ArraySort : Type := {
  Array_sort : forall T : Type, (T -> T -> Z) -> list T -> list T;
  Array_sort_Permutation :
    forall (T : Type) (comparefn : T -> T -> Z) (items : list T),
      Permutation items (Array_sort comparefn items)
}.

End Js.

(** ** The resolver primitive, [Deno.resolveDns] *)

Module Deno.

(** The record types this file asks for. *)
Inductive RecordType : Type := A | AAAA | CNAME | MX | PTR | SRV | TXT.

Record MXRecord : Type := { preference : Z; exchange : string }.

Record SRVRecord : Type :=
  { priority : Z; weight : Z; port : Z; target : string }.

(** The element type of the array [resolveDns] resolves to, by overload. *)
Definition native (t : RecordType) : Type :=
  match t with
  | A | AAAA | CNAME | PTR => string
  | MX => MXRecord
  | SRV => SRVRecord
  | TXT => list string
  end.

(** What a rejected lookup carries: [Deno.errors.NotFound] or anything
    else. *)
Inductive Error : Type :=
| NotFound (message : string)
| Other (message : string).

Definition instanceof_NotFound (e : Error) : bool :=
  match e with
  | NotFound _ => true
  | Other _ => false
  end.

(** The value a promise settles to. *)
Inductive Settled (T : Type) : Type :=
| Fulfilled (v : T)
| Rejected (e : Error).
Arguments Rejected {T} e.

(** The body of an [async] function is an error-monad computation: its
    result is how the returned promise settles. *)
Definition ret {T : Type} (v : T) : Settled T := Fulfilled v.

Definition bind {T U : Type} (m : Settled T) (k : T -> Settled U)
  : Settled U :=
  match m with
  | Fulfilled v => k v
  | Rejected e => Rejected e
  end.

(** [await p]: the value of a fulfilled promise, a raise for a rejected
    one. *)
Definition await {T : Type} (p : Settled T) : Settled T := p.

(** [try { body } catch (e) { handler }]. *)
Definition try_catch {T : Type} (body : Settled T)
    (handler : Error -> Settled T) : Settled T :=
  match body with
  | Fulfilled v => Fulfilled v
  | Rejected e => handler e
  end.

(** [p.then(onFulfilled)]: the callback runs on fulfilment only; a
    rejection passes through to the derived promise. *)
Definition then_ {T U : Type} (p : Settled T) (onFulfilled : T -> U)
  : Settled U :=
  match p with
  | Fulfilled v => Fulfilled (onFulfilled v)
  | Rejected e => Rejected e
  end.

Definition Resolver : Type :=
  string -> forall t : RecordType, Settled (list (native t)).

End Deno.

Notation "x <- m ;; k" := (Deno.bind m (fun x => k))
(at level 61, m at next level, right associativity).

(** ** The order in which pending promises settle *)

Module Loop.

Fixpoint remove_nth {X : Type} (k : nat) (l : list X) : list X :=
  match l, k with
  | [], _ => []
  | _ :: rest, O => rest
  | x :: rest, S k' => x :: remove_nth k' rest
  end.

(** The event loop settles one pending promise at a time.  The schedule
    names, at each turn, which of the promises still pending settles next
    (an index taken modulo their number; an exhausted schedule means the
    first). *)
Fixpoint settle_turns {X : Type} (turns : nat) (schedule : list nat)
    (pending : list X) : list X :=
  match turns, pending with
  | S turns', first :: _ =>
      let k := Nat.modulo (hd O schedule) (List.length pending) in
      nth k pending first
        :: settle_turns turns' (tl schedule) (remove_nth k pending)
  | _, _ => []
  end.

Definition settle_order {X : Type} (schedule : list nat)
    (pending : list X) : list X :=
  settle_turns (List.length pending) schedule pending.

End Loop.

(** ** The engine's sort: V8

    Deno runs on V8, whose [Array.prototype.sort] is TimSort.  An array of
    fewer than 64 elements is one run: [CountAndMakeRun] finds the ordered
    prefix (reversing it when it is strictly descending) and
    [BinaryInsertionSort] inserts the remaining elements one by one.  Longer
    arrays are cut into several runs that are merged afterwards; the merging
    is not modelled, [sort] below treats every array as one run.

    V8 hands the comparison function the later element first:
    [comparefn(later, earlier)] in [CountAndMakeRun] and
    [comparefn(pivot, element)] in [BinaryInsertionSort]. *)

Module V8.

Section Sort.

Variable T : Type.
Variable comparefn : T -> T -> Z.

(** The loop of [CountAndMakeRun]: how many more elements extend the run
    that ends in [previous]. *)
Fixpoint extend_run (isDescending : bool) (previous : T) (rest : list T)
  : nat :=
  match rest with
  | [] => O
  | current :: rest' =>
      let order := comparefn current previous in
      if isDescending
      then if (order >=? 0)%Z then O
           else S (extend_run isDescending current rest')
      else if (order <? 0)%Z then O
           else S (extend_run isDescending current rest')
  end.

(** [CountAndMakeRun]: the run at the start of the array, made ascending,
    and the elements after it. *)
Definition CountAndMakeRun (items : list T) : list T * list T :=
  match items with
  | elementLow :: elementHigh :: rest =>
      let order := comparefn elementHigh elementLow in
      let isDescending := (order <? 0)%Z in
      let runLength := (2 + extend_run isDescending elementHigh rest)%nat in
      let run := firstn runLength items in
      (if isDescending then rev run else run, skipn runLength items)
  | _ => (items, [])
  end.

(** The binary search of [BinaryInsertionSort] for the place of [pivot] in
    the sorted prefix, between [left] and [right]. *)
Fixpoint insertion_point (steps : nat) (pivot : T) (sorted : list T)
    (left right : nat) : nat :=
  match steps with
  | O => left
  | S steps' =>
      if (left <? right)%nat then
        let mid := (left + Nat.div2 (right - left))%nat in
        let order := comparefn pivot (nth mid sorted pivot) in
        if (order <? 0)%Z
        then insertion_point steps' pivot sorted left mid
        else insertion_point steps' pivot sorted (S mid) right
      else left
  end.

Definition insert_at (k : nat) (pivot : T) (sorted : list T) : list T :=
  firstn k sorted ++ pivot :: skipn k sorted.

Fixpoint BinaryInsertionSort (sorted rest : list T) : list T :=
  match rest with
  | [] => sorted
  | pivot :: rest' =>
      let n := List.length sorted in
      let left := insertion_point n pivot sorted O n in
      BinaryInsertionSort (insert_at left pivot sorted) rest'
  end.

Definition sort (items : list T) : list T :=
  let (run, rest) := CountAndMakeRun items in
  BinaryInsertionSort run rest.

Lemma insert_at_Permutation (k : nat) (pivot : T) (sorted : list T) :
  Permutation (pivot :: sorted) (insert_at k pivot sorted).
Proof.
  unfold insert_at.
  rewrite <- (firstn_skipn k sorted) at 1.
  apply Permutation_middle.
Qed.

Lemma BinaryInsertionSort_Permutation (rest sorted : list T) :
  Permutation (sorted ++ rest) (BinaryInsertionSort sorted rest).
Proof.
  revert sorted.
  induction rest as [|pivot rest IH]; intro sorted; simpl.
  - now rewrite app_nil_r.
  - etransitivity; [|apply IH].
    etransitivity; [symmetry; apply Permutation_middle|].
    apply (Permutation_app_tail rest (insert_at_Permutation _ pivot sorted)).
Qed.

Lemma CountAndMakeRun_Permutation (items : list T) :
  Permutation items (fst (CountAndMakeRun items) ++ snd (CountAndMakeRun items)).
Proof.
  destruct items as [|lo [|hi rest]]; try (simpl; now rewrite ?app_nil_r).
  unfold CountAndMakeRun.
  set (n := (2 + _)%nat).
  rewrite <- (firstn_skipn n (lo :: hi :: rest)) at 1.
  destruct (_ <? 0)%Z; simpl fst; simpl snd.
  - apply Permutation_app_tail, Permutation_rev.
  - reflexivity.
Qed.

Lemma sort_Permutation (items : list T) : Permutation items (sort items).
Proof.
  unfold sort.
  pose proof (CountAndMakeRun_Permutation items) as H.
  destruct (CountAndMakeRun items) as [run rest]; simpl in H.
  rewrite H. apply BinaryInsertionSort_Permutation.
Qed.

End Sort.

#[export] Instance engine : Js.ArraySort :=
  {| Js.Array_sort := sort; Js.Array_sort_Permutation := sort_Permutation |}.

End V8.

(** ** cares_wrap.ts *)

(** What a call makes happen, in order. *)
Inductive Event (P : Type) : Type :=
| Lookup (query : string) (recordType : Deno.RecordType)
    (** [Deno.resolveDns(query, recordType)] is called *)
| Settle (recordType : Deno.RecordType)
    (** the promise of that lookup settles *)
| OnComplete (err : Z) (payload : P)
    (** [req.oncomplete(err, payload)] is called *).
Arguments Lookup {P} query recordType.
Arguments Settle {P} recordType.

(** A call of the binding: what happens before it returns, how it ends, and
    what happens afterwards, from the event loop. *)
Record Call (P : Type) : Type := {
  sync_events : list (Event P);
  completion : Js.Completion Z;
  async_events : list (Event P)
}.

Definition is_OnComplete {P : Type} (e : Event P) : bool :=
  match e with
  | OnComplete _ _ => true
  | _ => false
  end.

Definition is_Lookup {P : Type} (e : Event P) : bool :=
  match e with
  | Lookup _ _ => true
  | _ => false
  end.

(** How often [req.oncomplete] is called in the course of a call. *)
Definition oncomplete_calls {P : Type} (c : Call P) : nat :=
  List.length (filter is_OnComplete (sync_events c ++ async_events c)).

(** The lookups a call starts. *)
Definition lookups {P : Type} (c : Call P) : list (Event P) :=
  filter is_Lookup (sync_events c ++ async_events c).

(** What [req.oncomplete] receives, call by call. *)
Definition delivered {P : Type} (c : Call P) : list (Z * P) :=
  flat_map (fun e => match e with
                     | OnComplete err payload => [(err, payload)]
                     | _ => []
                     end)
           (sync_events c ++ async_events c).

(** The element type of [recordTypes] in [getaddrinfo]: ["A" | "AAAA"]. *)
Inductive AddressRecordType : Type := addrA | addrAAAA.

Definition recordType_of (t : AddressRecordType) : Deno.RecordType :=
  match t with
  | addrA => Deno.A
  | addrAAAA => Deno.AAAA
  end.

(** Modelled from the spec: [notImplemented] of [_utils.ts] is not among the
    sources.  Its callers declare a [number] result and return nothing, so it
    never returns; the spec has the unsupported operations raise at once. *)
Definition notImplemented (msg : string) : Js.Completion Z :=
  Js.Throw ("Not implemented: " ++ msg).

Section CaresWrap.

(** The platform and the imports that are not part of this file. *)
Variable isWindows : bool.                    (* _util/os.ts *)
Variable isIPv4 : string -> bool.             (* internal/net.ts *)
Variable codeMap_get : string -> Z.           (* uv.ts: codeMap.get(name)! *)
Variable resolveDns : Deno.Resolver.          (* Deno.resolveDns *)
Context {engine : Js.ArraySort}.

Definition resolveAddress (hostname : string) (t : AddressRecordType)
  : Deno.Settled (list string) :=
  match t with
  | addrA => resolveDns hostname Deno.A
  | addrAAAA => resolveDns hostname Deno.AAAA
  end.

(** *** getaddrinfo *)

(** Lines 70-77. *)
Definition recordTypes (family : Z) : list AddressRecordType :=
  let recordTypes := [] in
  let recordTypes :=
    if (family =? 0)%Z || (family =? 4)%Z
    then recordTypes ++ [addrA] else recordTypes in
  let recordTypes :=
    if (family =? 0)%Z || (family =? 6)%Z
    then recordTypes ++ [addrAAAA] else recordTypes in
  recordTypes.

(** The array [addresses] after one lookup has settled: its [then] callback
    pushes the records of a fulfilled lookup; a rejected one leaves the
    array alone (lines 82-84). *)
Definition push_addresses (hostname : string) (addresses : list string)
    (t : AddressRecordType) : list string :=
  match Deno.then_ (resolveAddress hostname t)
                   (fun records => addresses ++ records) with
  | Deno.Fulfilled addresses' => addresses'
  | Deno.Rejected _ => addresses
  end.

(** [addresses] when [Promise.allSettled] resolves, the lookups having
    settled in [order]. *)
Definition merged_addresses (hostname : string)
    (order : list AddressRecordType) : list string :=
  fold_left (push_addresses hostname) order [].

(** The comparison function of lines 93-101. *)
Definition compare_addresses (a b : string) : Z :=
  if isIPv4 a then (-1)%Z
  else if isIPv4 b then 1%Z
  else 0%Z.

(** Lines 88-111, after the [await]. *)
Definition getaddrinfo_complete (hostname : string) (verbatim : bool)
    (addresses : list string) : Event (list string) :=
  let error :=
    if (List.length addresses =? 0)%nat
    then codeMap_get "EAI_NODATA" else 0%Z in
  let addresses :=
    if negb verbatim
    then Js.Array_sort compare_addresses addresses else addresses in
  let addresses :=
    if isWindows && (hostname =? "localhost")%string
    then filter isIPv4 addresses else addresses in
  OnComplete error addresses.

Definition getaddrinfo (hostname : string) (family : Z) (_hints : Z)
    (verbatim : bool) (schedule : list nat) : Call (list string) :=
  let recordTypes := recordTypes family in
  let order := Loop.settle_order schedule recordTypes in
  {| sync_events :=
       map (fun t => Lookup hostname (recordType_of t)) recordTypes;
     completion := Js.Return 0%Z;
     async_events :=
       map (fun t => Settle (recordType_of t)) order
       ++ [getaddrinfo_complete hostname verbatim
             (merged_addresses hostname order)] |}.

(** *** ChannelWrap *)

Record QueryResult (t : Deno.RecordType) : Type :=
  { code : Z; ret : list (Deno.native t) }.

(** [#query], lines 169-187. *)
Definition query (name : string) (recordType : Deno.RecordType)
  : Deno.Settled (QueryResult recordType) :=
  let ret0 : list (Deno.native recordType) := [] in
  let code0 := 0%Z in
  state <- Deno.try_catch
             (records <- Deno.await (resolveDns name recordType) ;;
              Deno.ret (code0, records))
             (fun e =>
                if Deno.instanceof_NotFound e
                then Deno.ret (codeMap_get "EAI_NODATA", ret0)
                else Deno.ret (codeMap_get "UNKNOWN", ret0)) ;;
  Deno.ret {| code := fst state; ret := snd state |}.

(** What the event loop does once the promise of a single lookup has
    settled: a derived promise that fulfilled has run its callback. *)
Definition settled (P : Type) (recordType : Deno.RecordType)
    (reaction : Deno.Settled (Event P)) : list (Event P) :=
  Settle recordType
    :: match reaction with
       | Deno.Fulfilled e => [e]
       | Deno.Rejected _ => []
       end.

(** The object each [then] callback of [queryAny] pushes for one native
    record (lines 199-236). *)
Definition any_record (t : Deno.RecordType) : Deno.native t -> Js.Value :=
  match t return Deno.native t -> Js.Value with
  | Deno.A => fun record =>
      Js.Obj [("type", Js.Str "A"); ("address", Js.Str record)]
  | Deno.AAAA => fun record =>
      Js.Obj [("type", Js.Str "AAAA"); ("address", Js.Str record)]
  | Deno.CNAME => fun record =>
      Js.Obj [("type", Js.Str "CNAME"); ("value", Js.Str record)]
  | Deno.MX => fun record =>
      Js.Obj [("type", Js.Str "MX");
              ("priority", Js.Num (Deno.preference record));
              ("exchange", Js.Str (Deno.exchange record))]
  | Deno.PTR => fun record =>
      Js.Obj [("type", Js.Str "PTR"); ("value", Js.Str record)]
  | Deno.SRV => fun record =>
      Js.Obj [("type", Js.Str "SRV");
              ("priority", Js.Num (Deno.priority record));
              ("weight", Js.Num (Deno.weight record));
              ("port", Js.Num (Deno.port record));
              ("name", Js.Str (Deno.target record))]
  | Deno.TXT => fun record =>
      Js.Obj [("type", Js.Str "TXT");
              ("entries", Js.Arr (map Js.Str record))]
  end.

(** The array [records] of [queryAny] after one [#query] has settled. *)
Definition push_records (name : string) (records : list Js.Value)
    (t : Deno.RecordType) : list Js.Value :=
  match Deno.then_ (query name t)
                   (fun r => records ++ map (@any_record t) (ret r)) with
  | Deno.Fulfilled records' => records'
  | Deno.Rejected _ => records
  end.

Definition merged_records (name : string) (order : list Deno.RecordType)
  : list Js.Value :=
  fold_left (push_records name) order [].

(** The seven queries of [queryAny], in the order of the array literal. *)
Definition queryAny_types : list Deno.RecordType :=
  [Deno.A; Deno.AAAA; Deno.CNAME; Deno.MX; Deno.PTR; Deno.SRV; Deno.TXT].

(** Lines 239-241. *)
Definition queryAny_complete (records : list Js.Value)
  : Event (list Js.Value) :=
  let err :=
    if (List.length records =? 0)%nat
    then codeMap_get "EAI_NODATA" else 0%Z in
  OnComplete err records.

Definition queryAny (name : string) (schedule : list nat)
  : Call (list Js.Value) :=
  let order := Loop.settle_order schedule queryAny_types in
  {| sync_events := map (Lookup name) queryAny_types;
     completion := Js.Return 0%Z;
     async_events :=
       map (fun t => Settle t) order
       ++ [queryAny_complete (merged_records name order)] |}.

Definition queryA (name : string) : Call (list Js.Value) :=
  {| sync_events := [Lookup name Deno.A];
     completion := Js.Return 0%Z;
     async_events :=
       settled Deno.A
         (Deno.then_ (query name Deno.A)
            (fun r => OnComplete (code r) (map Js.Str (ret r)))) |}.

Definition queryAaaa (name : string) : Call (list Js.Value) :=
  {| sync_events := [Lookup name Deno.AAAA];
     completion := Js.Return 0%Z;
     async_events :=
       settled Deno.AAAA
         (Deno.then_ (query name Deno.AAAA)
            (fun r => OnComplete (code r) (map Js.Str (ret r)))) |}.

Definition queryCaa (_name : string) : Call (list Js.Value) :=
  {| sync_events := [];
     completion := notImplemented "cares.ChannelWrap.prototype.queryCaa";
     async_events := [] |}.

Definition queryCname (name : string) : Call (list Js.Value) :=
  {| sync_events := [Lookup name Deno.CNAME];
     completion := Js.Return 0%Z;
     async_events :=
       settled Deno.CNAME
         (Deno.then_ (query name Deno.CNAME)
            (fun r => OnComplete (code r) (map Js.Str (ret r)))) |}.

Definition queryMx (name : string) : Call (list Js.Value) :=
  {| sync_events := [Lookup name Deno.MX];
     completion := Js.Return 0%Z;
     async_events :=
       settled Deno.MX
         (Deno.then_ (query name Deno.MX)
            (fun r =>
               let records :=
                 map (fun m : Deno.MXRecord =>
                        Js.Obj [("priority", Js.Num (Deno.preference m));
                                ("exchange", Js.Str (Deno.exchange m))])
                     (ret r) in
               OnComplete (code r) records)) |}.

Definition queryNs (_name : string) : Call (list Js.Value) :=
  {| sync_events := [];
     completion := notImplemented "cares.ChannelWrap.prototype.queryNs";
     async_events := [] |}.

Definition queryTxt (name : string) : Call (list Js.Value) :=
  {| sync_events := [Lookup name Deno.TXT];
     completion := Js.Return 0%Z;
     async_events :=
       settled Deno.TXT
         (Deno.then_ (query name Deno.TXT)
            (fun r =>
               OnComplete (code r)
                 (map (fun entries : list string =>
                         Js.Arr (map Js.Str entries))
                      (ret r)))) |}.

Definition querySrv (name : string) : Call (list Js.Value) :=
  {| sync_events := [Lookup name Deno.SRV];
     completion := Js.Return 0%Z;
     async_events :=
       settled Deno.SRV
         (Deno.then_ (query name Deno.SRV)
            (fun r =>
               let records :=
                 map (fun s : Deno.SRVRecord =>
                        Js.Obj [("priority", Js.Num (Deno.priority s));
                                ("weight", Js.Num (Deno.weight s));
                                ("port", Js.Num (Deno.port s));
                                ("name", Js.Str (Deno.target s))])
                     (ret r) in
               OnComplete (code r) records)) |}.

Definition queryPtr (name : string) : Call (list Js.Value) :=
  {| sync_events := [Lookup name Deno.PTR];
     completion := Js.Return 0%Z;
     async_events :=
       settled Deno.PTR
         (Deno.then_ (query name Deno.PTR)
            (fun r => OnComplete (code r) (map Js.Str (ret r)))) |}.

Definition queryNaptr (_name : string) : Call (list Js.Value) :=
  {| sync_events := [];
     completion := notImplemented "cares.ChannelWrap.prototype.queryNaptr";
     async_events := [] |}.

Definition querySoa (_name : string) : Call (list Js.Value) :=
  {| sync_events := [];
     completion := notImplemented "cares.ChannelWrap.prototype.querySoa";
     async_events := [] |}.

Definition getHostByAddr (_name : string) : Call (list Js.Value) :=
  {| sync_events := [];
     completion := notImplemented "cares.ChannelWrap.prototype.getHostByAddr";
     async_events := [] |}.

(** The methods of the interface [ChannelWrapQuery]. *)
Inductive Method : Type :=
| QueryAny | QueryA | QueryAaaa | QueryCaa | QueryCname | QueryMx | QueryNs
| QueryTxt | QuerySrv | QueryPtr | QueryNaptr | QuerySoa | GetHostByAddr.

Definition invoke (m : Method) (name : string) (schedule : list nat)
  : Call (list Js.Value) :=
  match m with
  | QueryAny => queryAny name schedule
  | QueryA => queryA name
  | QueryAaaa => queryAaaa name
  | QueryCaa => queryCaa name
  | QueryCname => queryCname name
  | QueryMx => queryMx name
  | QueryNs => queryNs name
  | QueryTxt => queryTxt name
  | QuerySrv => querySrv name
  | QueryPtr => queryPtr name
  | QueryNaptr => queryNaptr name
  | QuerySoa => querySoa name
  | GetHostByAddr => getHostByAddr name
  end.

End CaresWrap.

(** The methods whose body is a call of [notImplemented]. *)
Definition unsupported (m : Method) : bool :=
  match m with
  | QueryCaa | QueryNs | QueryNaptr | QuerySoa | GetHostByAddr => true
  | _ => false
  end.

(** The record type a single-type method asks the resolver for. *)
Definition lookup_type (m : Method) : option Deno.RecordType :=
  match m with
  | QueryA => Some Deno.A
  | QueryAaaa => Some Deno.AAAA
  | QueryCname => Some Deno.CNAME
  | QueryMx => Some Deno.MX
  | QueryTxt => Some Deno.TXT
  | QuerySrv => Some Deno.SRV
  | QueryPtr => Some Deno.PTR
  | _ => None
  end.

(** *** strerror *)

(** Lines 364-365. *)
Definition DNS_ESETSRVPENDING : Z := (-1000)%Z.
Definition EMSG_ESETSRVPENDING : string := "There are pending queries.".

(** Lines 367-371; [ares_strerror] is the table of [ares.ts]. *)
Definition strerror (ares_strerror : Z -> string) (code : Z) : string :=
  if (code =? DNS_ESETSRVPENDING)%Z
  then EMSG_ESETSRVPENDING
  else ares_strerror code.

(** ** Reading what was delivered *)

(** [value[key]] for an object literal: the first field of that name;
    [None] stands for [undefined]. *)
Fixpoint lookup_field (key : string) (fields : list (string * Js.Value))
  : option Js.Value :=
  match fields with
  | [] => None
  | (k, v) :: rest =>
      if (k =? key)%string then Some v else lookup_field key rest
  end.

Definition get_property (value : Js.Value) (key : string)
  : option Js.Value :=
  match value with
  | Js.Obj fields => lookup_field key fields
  | _ => None
  end.

(** The string a record type is in TypeScript. *)
Definition type_name (t : Deno.RecordType) : string :=
  match t with
  | Deno.A => "A"
  | Deno.AAAA => "AAAA"
  | Deno.CNAME => "CNAME"
  | Deno.MX => "MX"
  | Deno.PTR => "PTR"
  | Deno.SRV => "SRV"
  | Deno.TXT => "TXT"
  end.

(** The records a lookup yields: those it fulfils with, none when it is
    rejected. *)
Definition records_of (resolveDns : Deno.Resolver) (name : string)
    (t : Deno.RecordType) : list (Deno.native t) :=
  match resolveDns name t with
  | Deno.Fulfilled records => records
  | Deno.Rejected _ => []
  end.

Definition no_records (X : Type) (records : list X) : bool :=
  match records with
  | [] => true
  | _ :: _ => false
  end.

(** ** A concrete host

    The imports of the file and a resolver with a few names, to run the
    binding on. *)

Module Host.

Fixpoint segments (s : string) : list string :=
  match s with
  | EmptyString => [EmptyString]
  | String c rest =>
      if Ascii.eqb c "."%char then EmptyString :: segments rest
      else match segments rest with
           | seg :: more => String c seg :: more
           | [] => [String c EmptyString]
           end
  end.

Definition digit (c : ascii) : option nat :=
  let n := nat_of_ascii c in
  if ((48 <=? n) && (n <=? 57))%nat then Some (n - 48)%nat else None.

(** One decimal octet, 0 to 255, without a leading zero. *)
Definition v4Seg (seg : string) : bool :=
  match list_ascii_of_string seg with
  | [a] => match digit a with Some _ => true | None => false end
  | [a; b] =>
      match digit a, digit b with
      | Some x, Some _ => negb (x =? 0)%nat
      | _, _ => false
      end
  | [a; b; c] =>
      match digit a, digit b, digit c with
      | Some x, Some y, Some z =>
          negb (x =? 0)%nat && (100 * x + 10 * y + z <=? 255)%nat
      | _, _, _ => false
      end
  | _ => false
  end.

(** Modelled from the spec: [isIPv4] of [internal/net.ts] is not among the
    sources; the spec speaks of IPv4-literal addresses.  Here: four decimal
    octets separated by dots. *)
Definition isIPv4 (s : string) : bool :=
  match segments s with
  | [a; b; c; d] => v4Seg a && v4Seg b && v4Seg c && v4Seg d
  | _ => false
  end.

(** Modelled from the spec: [codeMap] of [uv.ts] is not among the sources;
    the spec asks for stable non-zero codes.  Here: the numbers libuv gives
    [UV_EAI_NODATA] and [UV_UNKNOWN]. *)
Definition codeMap_get (name : string) : Z :=
  if (name =? "EAI_NODATA")%string then (-3007)%Z
  else if (name =? "UNKNOWN")%string then (-4094)%Z
  else 0%Z.

(** A resolver that knows three names and fails for every other one. *)
Definition resolveDns : Deno.Resolver :=
  fun name t =>
    if (name =? "localhost")%string then
      match t return Deno.Settled (list (Deno.native t)) with
      | Deno.A => Deno.Fulfilled ["127.0.0.1"]
      | Deno.AAAA => Deno.Fulfilled ["::1"]
      | _ => Deno.Rejected (Deno.NotFound "no records")
      end
    else if (name =? "example.test")%string then
      match t return Deno.Settled (list (Deno.native t)) with
      | Deno.A => Deno.Fulfilled ["93.184.216.34"; "93.184.216.35"]
      | Deno.AAAA => Deno.Fulfilled ["2606:2800:220:1::"]
      | Deno.MX =>
          Deno.Fulfilled
            [{| Deno.preference := 10; Deno.exchange := "mail.example.test" |}]
      | Deno.SRV =>
          Deno.Fulfilled
            [{| Deno.priority := 1; Deno.weight := 5; Deno.port := 5060;
                Deno.target := "sip.example.test" |}]
      | Deno.TXT => Deno.Fulfilled [["v=spf1"; "-all"]]
      | _ => Deno.Rejected (Deno.NotFound "no records")
      end
    else if (name =? "nowhere.invalid")%string then
      Deno.Rejected (Deno.NotFound "no records")
    else Deno.Rejected (Deno.Other "connection refused").

(** Deno on V8, on Windows or elsewhere. *)
Definition getaddrinfo (isWindows : bool) :=
  @getaddrinfo isWindows isIPv4 codeMap_get resolveDns V8.engine.

Definition merged_addresses :=
  @merged_addresses resolveDns.

End Host.

(** * Properties *)

(** ** The schedule *)

Module LoopFacts.
Import Loop.

Lemma remove_nth_length (X : Type) (l : list X) (k : nat) :
  (k < List.length l)%nat ->
  S (List.length (remove_nth k l)) = List.length l.
Proof.
  revert k.
  induction l as [|x l IH]; intros k Hk; simpl in *.
  - lia.
  - destruct k as [|k]; [reflexivity|].
    simpl. rewrite IH by lia. reflexivity.
Qed.

Lemma remove_nth_Permutation (X : Type) (l : list X) (k : nat) (d : X) :
  (k < List.length l)%nat ->
  Permutation (nth k l d :: remove_nth k l) l.
Proof.
  revert k.
  induction l as [|x l IH]; intros k Hk; simpl in *.
  - lia.
  - destruct k as [|k]; [reflexivity|].
    etransitivity; [apply perm_swap|].
    apply perm_skip, IH. lia.
Qed.

Lemma settle_turns_Permutation (X : Type) (turns : nat) :
  forall (schedule : list nat) (pending : list X),
    List.length pending = turns ->
    Permutation (settle_turns turns schedule pending) pending.
Proof.
  induction turns as [|turns IH]; intros schedule pending Hlen.
  - destruct pending; [constructor | discriminate].
  - destruct pending as [|first rest]; [discriminate|].
    cbn [settle_turns].
    set (k := Nat.modulo _ _).
    assert (Hk : (k < List.length (first :: rest))%nat)
      by (apply Nat.mod_upper_bound; discriminate).
    etransitivity; [|apply (remove_nth_Permutation _ first Hk)].
    apply perm_skip, IH.
    pose proof (remove_nth_length _ Hk) as Hr. lia.
Qed.

(** Every pending promise settles, once. *)
Lemma settle_order_Permutation (X : Type) (schedule : list nat)
    (pending : list X) :
  Permutation (settle_order schedule pending) pending.
Proof. apply settle_turns_Permutation. reflexivity. Qed.

(** And they may settle in any order: each arrangement of the pending
    promises is the settle order of some schedule. *)
Lemma settle_order_complete (X : Type) (order : list X) :
  forall pending : list X,
    Permutation order pending ->
    exists schedule, settle_order schedule pending = order.
Proof.
  induction order as [|x order IH]; intros pending Hperm.
  - apply Permutation_nil in Hperm. subst. exists []. reflexivity.
  - assert (Hin : In x pending)
      by (eapply Permutation_in; [exact Hperm | now left]).
    destruct (In_nth pending x x Hin) as (k & Hk & Hnth).
    pose proof (remove_nth_Permutation pending x Hk) as Hrem.
    rewrite Hnth in Hrem.
    assert (Hrest : Permutation order (remove_nth k pending)).
    { apply Permutation_cons_inv with (a := x).
      etransitivity; [exact Hperm | symmetry; exact Hrem]. }
    destruct (IH _ Hrest) as [schedule Hs].
    exists (k :: schedule).
    unfold settle_order in *.
    destruct pending as [|first rest]; [inversion Hin|].
    cbn [List.length settle_turns hd tl].
    rewrite Nat.mod_small by exact Hk.
    pose proof (remove_nth_length _ Hk) as Hlen.
    cbn [List.length] in Hlen.
    injection Hlen as Hlen. rewrite <- Hlen, Hs.
    f_equal.
    rewrite <- Hnth. apply nth_indep. exact Hk.
Qed.

End LoopFacts.

(** ** V8's sort with the comparison function of [getaddrinfo] *)

Module V8Facts.

Unset Implicit Arguments.

Section CompareAddresses.

Variable isIPv4 : string -> bool.

Let other (a : string) : bool := negb (isIPv4 a).

(** What one run of V8's sort makes of the addresses seen so far: the IPv4
    addresses latest first, then the others in their order. *)
Definition arranged (seen : list string) : list string :=
  rev (filter isIPv4 seen) ++ filter other seen.

Lemma compare_ipv4 (a b : string) :
  isIPv4 a = true -> (compare_addresses isIPv4 a b <? 0)%Z = true.
Proof. unfold compare_addresses. now intros ->. Qed.

Lemma compare_other (a b : string) :
  isIPv4 a = false -> (compare_addresses isIPv4 a b <? 0)%Z = false.
Proof. unfold compare_addresses. intros ->. now destruct (isIPv4 b). Qed.

Lemma filter_all (f : string -> bool) (l : list string) :
  forallb f l = true -> filter f l = l.
Proof.
  induction l as [|x l IH]; simpl; [reflexivity|].
  intros [Hx Hl]%andb_true_iff. now rewrite Hx, IH.
Qed.

Lemma filter_none (f : string -> bool) (l : list string) :
  forallb (fun x => negb (f x)) l = true -> filter f l = [].
Proof.
  induction l as [|x l IH]; simpl; [reflexivity|].
  intros [Hx Hl]%andb_true_iff.
  apply negb_true_iff in Hx. now rewrite Hx, IH.
Qed.

Lemma filter_other_ipv4 (l : list string) :
  forallb isIPv4 l = true -> filter other l = [].
Proof.
  induction l as [|x l IH]; simpl; [reflexivity|].
  intros [Hx Hl]%andb_true_iff. unfold other at 1. now rewrite Hx, IH.
Qed.

(** A descending run goes on as long as IPv4 addresses follow. *)
Lemma extend_run_descending (previous : string) (rest : list string) :
  forallb isIPv4
    (firstn (V8.extend_run (compare_addresses isIPv4) true previous rest)
            rest) = true.
Proof.
  revert previous.
  induction rest as [|current rest IH]; intro previous; simpl;
    [reflexivity|].
  destruct (isIPv4 current) eqn:Hc.
  - rewrite Z.geb_leb.
    pose proof (compare_ipv4 current previous Hc) as Hlt.
    apply Z.ltb_lt in Hlt.
    destruct (Z.leb_spec 0 (compare_addresses isIPv4 current previous));
      [lia|].
    simpl. now rewrite Hc, IH.
  - rewrite Z.geb_leb.
    pose proof (compare_other current previous Hc) as Hge.
    apply Z.ltb_ge in Hge.
    destruct (Z.leb_spec 0 (compare_addresses isIPv4 current previous));
      [reflexivity | lia].
Qed.

(** An ascending run goes on as long as other addresses follow. *)
Lemma extend_run_ascending (previous : string) (rest : list string) :
  forallb other
    (firstn (V8.extend_run (compare_addresses isIPv4) false previous rest)
            rest) = true.
Proof.
  revert previous.
  induction rest as [|current rest IH]; intro previous; simpl;
    [reflexivity|].
  destruct (isIPv4 current) eqn:Hc.
  - now rewrite (compare_ipv4 current previous Hc).
  - rewrite (compare_other current previous Hc). simpl.
    unfold other at 1. now rewrite Hc, IH.
Qed.

Lemma CountAndMakeRun_arranged (items : list string) :
  exists seen : list string,
    fst (V8.CountAndMakeRun (compare_addresses isIPv4) items) = arranged seen
    /\ seen ++ snd (V8.CountAndMakeRun (compare_addresses isIPv4) items)
       = items.
Proof.
  destruct items as [|lo [|hi rest]].
  - exists []. split; reflexivity.
  - exists [lo]. split; [|reflexivity].
    unfold arranged, other. simpl. now destruct (isIPv4 lo).
  - unfold V8.CountAndMakeRun.
    destruct (isIPv4 hi) eqn:Hhi.
    + rewrite (compare_ipv4 hi lo Hhi).
      set (n := V8.extend_run (compare_addresses isIPv4) true hi rest).
      exists (firstn (2 + n) (lo :: hi :: rest)).
      cbn [fst snd]. split; [|apply firstn_skipn].
      pose proof (extend_run_descending hi rest) as Hrun. fold n in Hrun.
      unfold arranged. cbn [Nat.add firstn filter].
      replace (other hi) with false by (unfold other; now rewrite Hhi).
      replace (other lo) with (negb (isIPv4 lo)) by reflexivity.
      rewrite Hhi, (filter_all _ _ Hrun), (filter_other_ipv4 _ Hrun).
      destruct (isIPv4 lo); cbn [negb rev]; rewrite ?app_nil_r;
        reflexivity.
    + rewrite (compare_other hi lo Hhi).
      set (n := V8.extend_run (compare_addresses isIPv4) false hi rest).
      exists (firstn (2 + n) (lo :: hi :: rest)).
      cbn [fst snd]. split; [|apply firstn_skipn].
      pose proof (extend_run_ascending hi rest) as Hrun. fold n in Hrun.
      unfold arranged. cbn [Nat.add firstn filter].
      replace (other hi) with true by (unfold other; now rewrite Hhi).
      replace (other lo) with (negb (isIPv4 lo)) by reflexivity.
      rewrite Hhi, (filter_all _ _ Hrun), (filter_none isIPv4 _ Hrun).
      destruct (isIPv4 lo); reflexivity.
Qed.

(** An IPv4 pivot is inserted in front of everything. *)
Lemma insertion_point_ipv4 (pivot : string) (sorted : list string)
    (steps right : nat) :
  isIPv4 pivot = true ->
  V8.insertion_point (compare_addresses isIPv4) steps pivot sorted O right
  = O.
Proof.
  intro Hp. revert right.
  induction steps as [|steps IH]; intro right; simpl; [reflexivity|].
  destruct (0 <? right)%nat; [|reflexivity].
  rewrite (compare_ipv4 pivot _ Hp). apply IH.
Qed.

(** Any other pivot is inserted behind everything. *)
Lemma insertion_point_other (pivot : string) (sorted : list string)
    (steps : nat) :
  isIPv4 pivot = false ->
  forall left right : nat,
    (left <= right)%nat -> (right - left <= steps)%nat ->
    V8.insertion_point (compare_addresses isIPv4) steps pivot sorted
      left right = right.
Proof.
  intro Hp.
  induction steps as [|steps IH]; intros left right Hle Hfuel; simpl.
  - lia.
  - destruct (Nat.ltb_spec left right) as [Hlt|Hge]; [|lia].
    rewrite (compare_other pivot _ Hp).
    assert (Hhalf : (Nat.div2 (right - left) < right - left)%nat)
      by (apply Nat.lt_div2; lia).
    generalize dependent (Nat.div2 (right - left)).
    intros half Hhalf. apply IH; lia.
Qed.

Lemma arranged_snoc (seen : list string) (pivot : string) :
  arranged (seen ++ [pivot])
  = if isIPv4 pivot then pivot :: arranged seen
    else arranged seen ++ [pivot].
Proof.
  unfold arranged. rewrite !filter_app. cbn [filter]. unfold other at 2.
  destruct (isIPv4 pivot); cbn [negb].
  - now rewrite rev_app_distr, app_nil_r.
  - now rewrite app_nil_r, app_assoc.
Qed.

Lemma BinaryInsertionSort_arranged (rest seen : list string) :
  V8.BinaryInsertionSort (compare_addresses isIPv4) (arranged seen) rest
  = arranged (seen ++ rest).
Proof.
  revert seen.
  induction rest as [|pivot rest IH]; intro seen; cbn [V8.BinaryInsertionSort].
  - now rewrite app_nil_r.
  - replace (seen ++ pivot :: rest) with ((seen ++ [pivot]) ++ rest)
      by (now rewrite <- app_assoc).
    rewrite <- IH. f_equal.
    rewrite arranged_snoc.
    destruct (isIPv4 pivot) eqn:Hp.
    + now rewrite insertion_point_ipv4.
    + rewrite insertion_point_other by (auto; lia).
      unfold V8.insert_at. now rewrite firstn_all, skipn_all.
Qed.

(** On one run, V8 puts the IPv4 addresses first, in the reverse of their
    order in the array, and leaves the other addresses in their order. *)
Lemma sort_compare_addresses (addresses : list string) :
  V8.sort (compare_addresses isIPv4) addresses
  = rev (filter isIPv4 addresses)
    ++ filter (fun a => negb (isIPv4 a)) addresses.
Proof.
  unfold V8.sort.
  destruct (CountAndMakeRun_arranged addresses) as (seen & Hrun & Hitems).
  destruct (V8.CountAndMakeRun (compare_addresses isIPv4) addresses)
    as [run rest].
  cbn [fst snd] in Hrun, Hitems. subst run addresses.
  apply BinaryInsertionSort_arranged.
Qed.

End CompareAddresses.

End V8Facts.

Set Implicit Arguments.

(** ** The binding *)

(** The code the aggregate lookups compute for a sequence: [0] when it has
    an element, [EAI_NODATA] when it has none. *)
Definition aggregate_code (codeMap_get : string -> Z) (X : Type)
    (sequence : list X) : Z :=
  match sequence with
  | [] => codeMap_get "EAI_NODATA"
  | _ :: _ => 0%Z
  end.

(** The addresses a lookup contributes: its records, or nothing when it was
    rejected. *)
Definition addresses_of (resolveDns : Deno.Resolver) (hostname : string)
    (t : AddressRecordType) : list string :=
  match resolveAddress resolveDns hostname t with
  | Deno.Fulfilled records => records
  | Deno.Rejected _ => []
  end.

Section Facts.

Variable isWindows : bool.
Variable isIPv4 : string -> bool.
Variable codeMap_get : string -> Z.
Variable resolveDns : Deno.Resolver.
Context {engine : Js.ArraySort}.

Lemma no_OnComplete_in_lookups (P X : Type) (f : X -> Deno.RecordType)
    (q : string) (l : list X) :
  filter (@is_OnComplete P) (map (fun t => Lookup q (f t)) l) = [].
Proof. induction l; simpl; auto. Qed.

Lemma no_OnComplete_in_settles (P X : Type) (f : X -> Deno.RecordType)
    (l : list X) :
  filter (@is_OnComplete P) (map (fun t => Settle (f t)) l) = [].
Proof. induction l; simpl; auto. Qed.

Lemma Array_sort_nil (T : Type) (comparefn : T -> T -> Z) :
  Js.Array_sort comparefn [] = [].
Proof.
  apply Permutation_nil, Js.Array_sort_Permutation.
Qed.

Lemma length_zero_code (X : Type) (sequence : list X) :
  (if (List.length sequence =? 0)%nat
   then codeMap_get "EAI_NODATA" else 0%Z)
  = aggregate_code codeMap_get sequence.
Proof. destruct sequence; reflexivity. Qed.

Lemma aggregate_code_Permutation (X : Type) (l l' : list X) :
  Permutation l l' ->
  aggregate_code codeMap_get l = aggregate_code codeMap_get l'.
Proof.
  intro H. destruct l, l'; try reflexivity.
  - apply Permutation_nil in H. discriminate.
  - symmetry in H. apply Permutation_nil in H. discriminate.
Qed.

(** The merged addresses are the contributions of the lookups, in the order
    in which the lookups settled. *)
Lemma merged_addresses_flat_map (hostname : string)
    (order : list AddressRecordType) :
  merged_addresses resolveDns hostname order
  = flat_map (addresses_of resolveDns hostname) order.
Proof.
  unfold merged_addresses.
  assert (H : forall acc,
             fold_left (push_addresses resolveDns hostname) order acc
             = acc ++ flat_map (addresses_of resolveDns hostname) order).
  { induction order as [|t order IH]; intro acc; simpl.
    - now rewrite app_nil_r.
    - rewrite IH, app_assoc. do 2 f_equal.
      unfold push_addresses, addresses_of.
      destruct (resolveAddress resolveDns hostname t); simpl;
        [reflexivity | now rewrite app_nil_r]. }
  apply (H []).
Qed.

(** [#query] always fulfils. *)
Lemma query_fulfilled (name : string) (t : Deno.RecordType) :
  query codeMap_get resolveDns name t
  = Deno.Fulfilled
      match resolveDns name t with
      | Deno.Fulfilled records => {| code := 0%Z; ret := records |}
      | Deno.Rejected (Deno.NotFound _) =>
          {| code := codeMap_get "EAI_NODATA"; ret := [] |}
      | Deno.Rejected (Deno.Other _) =>
          {| code := codeMap_get "UNKNOWN"; ret := [] |}
      end.
Proof.
  unfold query.
  destruct (resolveDns name t) as [records|[msg|msg]]; reflexivity.
Qed.

(** Lookups and settlements deliver nothing. *)
Lemma delivered_events_app (P : Type) (sync async : list (Event P))
    (completion : Js.Completion Z) :
  delivered {| sync_events := sync; completion := completion;
               async_events := async |}
  = delivered {| sync_events := sync; completion := completion;
                 async_events := [] |}
    ++ delivered {| sync_events := []; completion := completion;
                    async_events := async |}.
Proof.
  unfold delivered. cbn [sync_events async_events].
  now rewrite app_nil_r, flat_map_app.
Qed.

Lemma oncomplete_calls_delivered (P : Type) (c : Call P) :
  oncomplete_calls c = List.length (delivered c).
Proof.
  unfold oncomplete_calls, delivered.
  induction (sync_events c ++ async_events c) as [|e l IH]; [reflexivity|].
  destruct e; simpl; auto.
Qed.

Lemma delivered_after_settles (P X : Type) (f : X -> Deno.RecordType)
    (q : string) (dispatched order : list X) (completion : Js.Completion Z)
    (last : list (Event P)) :
  delivered {| sync_events := map (fun t => Lookup q (f t)) dispatched;
               completion := completion;
               async_events := map (fun t => Settle (f t)) order ++ last |}
  = delivered {| sync_events := []; completion := completion;
                 async_events := last |}.
Proof.
  unfold delivered. cbn [sync_events async_events].
  rewrite !flat_map_app. cbn [app].
  assert (Hl : flat_map (fun e : Event P =>
                           match e with
                           | OnComplete err payload => [(err, payload)]
                           | _ => []
                           end)
                 (map (fun t => Lookup q (f t)) dispatched) = [])
    by (induction dispatched; simpl; auto).
  assert (Hs : flat_map (fun e : Event P =>
                           match e with
                           | OnComplete err payload => [(err, payload)]
                           | _ => []
                           end)
                 (map (fun t => Settle (f t)) order) = [])
    by (induction order; simpl; auto).
  now rewrite Hl, Hs.
Qed.

(** What [getaddrinfo] hands to [req.oncomplete]. *)
Lemma delivered_getaddrinfo (hostname : string) (family hints : Z)
    (verbatim : bool) (schedule : list nat) :
  let merged :=
    merged_addresses resolveDns hostname
      (Loop.settle_order schedule (recordTypes family)) in
  let ordered :=
    if verbatim then merged
    else Js.Array_sort (compare_addresses isIPv4) merged in
  delivered (getaddrinfo isWindows isIPv4 codeMap_get resolveDns
               hostname family hints verbatim schedule)
  = [(aggregate_code codeMap_get merged,
      if isWindows && (hostname =? "localhost")%string
      then filter isIPv4 ordered else ordered)].
Proof.
  cbv zeta. unfold getaddrinfo.
  rewrite delivered_after_settles.
  unfold delivered, getaddrinfo_complete. cbn.
  rewrite length_zero_code.
  now destruct verbatim.
Qed.

(** What [queryAny] hands to [req.oncomplete]. *)
Lemma delivered_queryAny (name : string) (schedule : list nat) :
  let records :=
    merged_records codeMap_get resolveDns name
      (Loop.settle_order schedule queryAny_types) in
  delivered (queryAny codeMap_get resolveDns name schedule)
  = [(aggregate_code codeMap_get records, records)].
Proof.
  cbv zeta. unfold queryAny.
  rewrite (delivered_after_settles (fun t => t)).
  unfold delivered, queryAny_complete. cbn.
  now rewrite length_zero_code.
Qed.

End Facts.

Section MoreFacts.

Variable isWindows : bool.
Variable isIPv4 : string -> bool.
Variable codeMap_get : string -> Z.
Variable resolveDns : Deno.Resolver.
Context {engine : Js.ArraySort}.

Lemma filter_Permutation (X : Type) (f : X -> bool) (l l' : list X) :
  Permutation l l' -> Permutation (filter f l) (filter f l').
Proof.
  induction 1 as [|x l l' _ IH|x y l|l l' l'' _ IH1 _ IH2]; simpl.
  - constructor.
  - destruct (f x); [now constructor | exact IH].
  - destruct (f x), (f y); try reflexivity. apply perm_swap.
  - now transitivity (filter f l').
Qed.

Lemma aggregate_code_flat_map (X Y : Type) (f : X -> list Y) (l : list X) :
  aggregate_code codeMap_get (flat_map f l)
  = if forallb (fun x => no_records (f x)) l
    then codeMap_get "EAI_NODATA" else 0%Z.
Proof.
  induction l as [|x l IH]; simpl; [reflexivity|].
  destruct (f x); simpl; [exact IH | reflexivity].
Qed.

Lemma forallb_pointwise (X : Type) (f g : X -> bool) (l : list X) :
  (forall x, f x = g x) -> forallb f l = forallb g l.
Proof.
  intro H. induction l as [|x l IH]; simpl; [reflexivity|].
  now rewrite H, IH.
Qed.

(** The merged records of [queryAny] are the tagged records of the seven
    lookups, in the order in which they settled. *)
Lemma merged_records_flat_map (name : string)
    (order : list Deno.RecordType) :
  merged_records codeMap_get resolveDns name order
  = flat_map (fun t => map (@any_record t) (records_of resolveDns name t))
             order.
Proof.
  unfold merged_records.
  assert (H : forall acc,
             fold_left (push_records codeMap_get resolveDns name) order acc
             = acc ++ flat_map
                        (fun t => map (@any_record t)
                                      (records_of resolveDns name t))
                        order).
  { induction order as [|t order IH]; intro acc; simpl.
    - now rewrite app_nil_r.
    - rewrite IH, app_assoc. do 2 f_equal.
      unfold push_records, records_of. rewrite query_fulfilled.
      cbn [Deno.then_].
      destruct (resolveDns name t) as [records|[msg|msg]]; cbn [ret map];
        rewrite ?app_nil_r; reflexivity. }
  apply (H []).
Qed.

(** The addresses [getaddrinfo] merges are, up to their order, those of the
    selected record types. *)
Lemma merged_addresses_Permutation (hostname : string) (family : Z)
    (schedule : list nat) :
  Permutation
    (merged_addresses resolveDns hostname
       (Loop.settle_order schedule (recordTypes family)))
    (flat_map (addresses_of resolveDns hostname) (recordTypes family)).
Proof.
  rewrite merged_addresses_flat_map.
  apply Permutation_flat_map, LoopFacts.settle_order_Permutation.
Qed.

Lemma merged_records_Permutation (name : string) (schedule : list nat) :
  Permutation
    (merged_records codeMap_get resolveDns name
       (Loop.settle_order schedule queryAny_types))
    (flat_map (fun t => map (@any_record t) (records_of resolveDns name t))
              queryAny_types).
Proof.
  rewrite merged_records_flat_map.
  apply Permutation_flat_map, LoopFacts.settle_order_Permutation.
Qed.

(** What [getaddrinfo] delivers, up to the order of the addresses. *)
Lemma getaddrinfo_delivers (hostname : string) (family hints : Z)
    (verbatim : bool) (schedule : list nat) :
  let selected :=
    flat_map (addresses_of resolveDns hostname) (recordTypes family) in
  exists addresses : list string,
    delivered (getaddrinfo isWindows isIPv4 codeMap_get resolveDns
                 hostname family hints verbatim schedule)
    = [(aggregate_code codeMap_get selected, addresses)]
    /\ Permutation addresses
         (if isWindows && (hostname =? "localhost")%string
          then filter isIPv4 selected else selected).
Proof.
  cbv zeta. rewrite delivered_getaddrinfo.
  pose proof (merged_addresses_Permutation hostname family schedule) as Hm.
  eexists. split.
  - f_equal. f_equal. apply aggregate_code_Permutation, Hm.
  - assert (Ho : Permutation
                   (if verbatim
                    then merged_addresses resolveDns hostname
                           (Loop.settle_order schedule (recordTypes family))
                    else Js.Array_sort (compare_addresses isIPv4)
                           (merged_addresses resolveDns hostname
                              (Loop.settle_order schedule
                                 (recordTypes family))))
                   (flat_map (addresses_of resolveDns hostname)
                             (recordTypes family))).
    { destruct verbatim; [exact Hm|].
      etransitivity; [symmetry; apply Js.Array_sort_Permutation | exact Hm]. }
    destruct (isWindows && (hostname =? "localhost")%string);
      [now apply filter_Permutation | exact Ho].
Qed.

(** The code of [queryAny] in terms of the seven lookups. *)
Lemma queryAny_code (name : string) (schedule : list nat) :
  aggregate_code codeMap_get
    (merged_records codeMap_get resolveDns name
       (Loop.settle_order schedule queryAny_types))
  = if forallb (fun t => no_records (records_of resolveDns name t))
               queryAny_types
    then codeMap_get "EAI_NODATA" else 0%Z.
Proof.
  rewrite (aggregate_code_Permutation codeMap_get
             (merged_records_Permutation name schedule)).
  rewrite aggregate_code_flat_map.
  rewrite (forallb_pointwise _
             (fun t => no_records (records_of resolveDns name t)));
    [reflexivity|].
  intro t. now destruct (records_of resolveDns name t).
Qed.

(** Ordering and filtering never add an address: when something is left of
    a list after them, the list had an element, and its code is [0]. *)
Lemma aggregate_code_of_kept (verbatim loopback : bool)
    (merged : list string) :
  let ordered :=
    if verbatim then merged
    else Js.Array_sort (compare_addresses isIPv4) merged in
  match (if loopback then filter isIPv4 ordered else ordered) with
  | [] => loopback = true
          \/ aggregate_code codeMap_get merged = codeMap_get "EAI_NODATA"
  | _ :: _ => aggregate_code codeMap_get merged = 0%Z
  end.
Proof.
  cbv zeta.
  assert (Ho : Permutation merged
                 (if verbatim then merged
                  else Js.Array_sort (compare_addresses isIPv4) merged))
    by (destruct verbatim; [reflexivity | apply Js.Array_sort_Permutation]).
  set (ordered := if verbatim then merged else _) in *.
  destruct loopback.
  - destruct (filter isIPv4 ordered) as [|a kept] eqn:Hk; [now left|].
    assert (Hin : In a merged).
    { apply (Permutation_in _ (Permutation_sym Ho)).
      apply (proj1 (filter_In isIPv4 a ordered)).
      rewrite Hk. now left. }
    destruct merged; [destruct Hin | reflexivity].
  - rewrite (aggregate_code_Permutation codeMap_get Ho).
    destruct ordered; [now right | reflexivity].
Qed.

End MoreFacts.

Section Claims.

Variable isWindows : bool.
Variable isIPv4 : string -> bool.
Variable codeMap_get : string -> Z.
Variable resolveDns : Deno.Resolver.
Context {engine : Js.ArraySort}.

(** C1, as amended.  The error code of an aggregate lookup is computed from
    the merged record sequence: [0] if it is non-empty, [EAI_NODATA] if it is
    empty.  [queryAny] delivers that very sequence.  [getaddrinfo] delivers
    the sequence after the ordering and the loopback filter.  A non-empty
    delivered sequence always comes with code [0]; an empty one comes with
    [EAI_NODATA] unless the platform is Windows and the hostname is
    "localhost", where the filter decides what is left. *)
Theorem C1_error_code_of_merged_sequence
    (hostname name : string) (family hints : Z) (verbatim : bool)
    (schedule : list nat) :
  (let records :=
     merged_records codeMap_get resolveDns name
       (Loop.settle_order schedule queryAny_types) in
   delivered (queryAny codeMap_get resolveDns name schedule)
   = [(aggregate_code codeMap_get records, records)])
  /\
  (let merged :=
     merged_addresses resolveDns hostname
       (Loop.settle_order schedule (recordTypes family)) in
   let ordered :=
     if verbatim then merged
     else Js.Array_sort (compare_addresses isIPv4) merged in
   let loopback := isWindows && (hostname =? "localhost")%string in
   exists (err : Z) (addresses : list string),
     delivered (getaddrinfo isWindows isIPv4 codeMap_get resolveDns
                  hostname family hints verbatim schedule)
     = [(err, addresses)]
     /\ err = aggregate_code codeMap_get merged
     /\ addresses = (if loopback then filter isIPv4 ordered else ordered)
     /\ match addresses with
        | [] => loopback = true \/ err = codeMap_get "EAI_NODATA"
        | _ :: _ => err = 0%Z
        end
     /\ (loopback = true \/ err = aggregate_code codeMap_get addresses)).
Proof.
  split; [apply delivered_queryAny|].
  cbv zeta. rewrite delivered_getaddrinfo.
  do 2 eexists. split; [reflexivity|].
  split; [reflexivity|]. split; [reflexivity|]. split.
  - apply (aggregate_code_of_kept isIPv4 codeMap_get verbatim).
  - destruct (isWindows && (hostname =? "localhost")%string);
      [now left | right].
    destruct verbatim; [reflexivity|].
    apply aggregate_code_Permutation, Js.Array_sort_Permutation.
Qed.

(** C2.  Whatever the lookups do and in whatever order they settle,
    [getaddrinfo] and [queryAny] return [0] without having called
    [req.oncomplete], and [req.oncomplete] is called exactly once. *)
Theorem C2_oncomplete_exactly_once
    (hostname name : string) (family hints : Z) (verbatim : bool)
    (schedule : list nat) :
  let g := getaddrinfo isWindows isIPv4 codeMap_get resolveDns
             hostname family hints verbatim schedule in
  let q := queryAny codeMap_get resolveDns name schedule in
  (completion g = Js.Return 0%Z
   /\ filter is_OnComplete (sync_events g) = []
   /\ oncomplete_calls g = 1%nat)
  /\
  (completion q = Js.Return 0%Z
   /\ filter is_OnComplete (sync_events q) = []
   /\ oncomplete_calls q = 1%nat).
Proof.
  cbv zeta. split; (split; [reflexivity | split]).
  - apply no_OnComplete_in_lookups.
  - now rewrite oncomplete_calls_delivered, delivered_getaddrinfo.
  - apply (no_OnComplete_in_lookups _ (fun t => t)).
  - now rewrite oncomplete_calls_delivered, delivered_queryAny.
Qed.

(** C4, as amended.  The ordering is applied to [getaddrinfo] results only
    and only when [verbatim] is false.  The loopback filter is applied to
    [getaddrinfo] results only, whenever the platform is Windows and the
    hostname is "localhost", whatever [verbatim] is.  So with [verbatim] true
    the merged list is delivered unmodified unless that filter applies;
    [queryAny] delivers its merged records unmodified. *)
Theorem C4_ordering_and_filter_scope
    (hostname name : string) (family hints : Z) (schedule : list nat) :
  let merged :=
    merged_addresses resolveDns hostname
      (Loop.settle_order schedule (recordTypes family)) in
  let ordered := Js.Array_sort (compare_addresses isIPv4) merged in
  let loopback := isWindows && (hostname =? "localhost")%string in
  delivered (getaddrinfo isWindows isIPv4 codeMap_get resolveDns
               hostname family hints true schedule)
  = [(aggregate_code codeMap_get merged,
      if loopback then filter isIPv4 merged else merged)]
  /\
  delivered (getaddrinfo isWindows isIPv4 codeMap_get resolveDns
               hostname family hints false schedule)
  = [(aggregate_code codeMap_get merged,
      if loopback then filter isIPv4 ordered else ordered)]
  /\
  map snd (delivered (queryAny codeMap_get resolveDns name schedule))
  = [merged_records codeMap_get resolveDns name
       (Loop.settle_order schedule queryAny_types)].
Proof.
  cbv zeta. rewrite !delivered_getaddrinfo, delivered_queryAny.
  repeat split.
Qed.



(** C7.  [#query] never rejects: it fulfils with [{code, ret}], where a
    fulfilled lookup gives code [0] and the resolver's records, a lookup
    rejected with [NotFound] gives [EAI_NODATA] and no records, and a lookup
    rejected with anything else gives [UNKNOWN] and no records. *)
Theorem C7_query_always_fulfils (name : string) (t : Deno.RecordType) :
  exists r : QueryResult t,
    query codeMap_get resolveDns name t = Deno.Fulfilled r
    /\ match resolveDns name t with
       | Deno.Fulfilled records => code r = 0%Z /\ ret r = records
       | Deno.Rejected (Deno.NotFound _) =>
           code r = codeMap_get "EAI_NODATA" /\ ret r = []
       | Deno.Rejected (Deno.Other _) =>
           code r = codeMap_get "UNKNOWN" /\ ret r = []
       end.
Proof.
  eexists. split; [apply query_fulfilled|].
  destruct (resolveDns name t) as [records|[msg|msg]]; split; reflexivity.
Qed.

(** C8.  A method whose body is [notImplemented] raises before anything is
    started: no lookup, no callback, no returned [0].  Every other method of
    [ChannelWrapQuery] starts its lookups and returns [0] whatever the
    resolver does, and what becomes of the lookups reaches the caller through
    the one call of [req.oncomplete] only: a single-type method hands over
    [0] with one record per native record for a fulfilled lookup,
    [EAI_NODATA] for one rejected with [NotFound] and [UNKNOWN] for one
    rejected otherwise, both with no records; [queryAny] hands over
    [EAI_NODATA] when none of its seven lookups yields a record and [0]
    otherwise. *)
Theorem C8_unsupported_raise_at_once
    (m : Method) (name : string) (schedule : list nat) :
  let c := invoke codeMap_get resolveDns m name schedule in
  if unsupported m
  then (exists message : string, completion c = Js.Throw message)
       /\ sync_events c = [] /\ async_events c = []
  else completion c = Js.Return 0%Z
       /\ filter is_OnComplete (sync_events c) = []
       /\ (exists (err : Z) (records : list Js.Value),
             delivered c = [(err, records)])
       /\ match lookup_type m with
          | Some t =>
              sync_events c = [Lookup name t]
              /\ match resolveDns name t with
                 | Deno.Fulfilled native =>
                     exists records : list Js.Value,
                       delivered c = [(0%Z, records)]
                       /\ List.length records = List.length native
                 | Deno.Rejected (Deno.NotFound _) =>
                     delivered c = [(codeMap_get "EAI_NODATA", [])]
                 | Deno.Rejected (Deno.Other _) =>
                     delivered c = [(codeMap_get "UNKNOWN", [])]
                 end
          | None =>
              sync_events c = map (Lookup name) queryAny_types
              /\ delivered c
                 = [(if forallb
                          (fun t => no_records (records_of resolveDns name t))
                          queryAny_types
                     then codeMap_get "EAI_NODATA" else 0%Z,
                     merged_records codeMap_get resolveDns name
                       (Loop.settle_order schedule queryAny_types))]
          end.
Proof.
  cbv zeta.
  destruct m; cbn [unsupported invoke lookup_type];
    try (split; [eexists; reflexivity | split; reflexivity]);
    (split; [reflexivity | split;
      [first [reflexivity | apply (no_OnComplete_in_lookups _ (fun t => t))]
      |]]).
  1: { rewrite delivered_queryAny, queryAny_code.
       split; [eauto|]. split; reflexivity. }
  all: unfold delivered, queryA, queryAaaa, queryCname, queryMx, queryTxt,
         querySrv, queryPtr;
    cbn [sync_events async_events app];
    rewrite query_fulfilled; cbn [Deno.then_ settled flat_map app];
    (split; [eauto|]); (split; [reflexivity|]);
    match goal with
    | |- context [resolveDns ?n ?t] =>
        destruct (resolveDns n t) as [native|[msg|msg]]; cbn [code ret map];
          [eexists; split; [reflexivity | apply length_map]
          | reflexivity | reflexivity]
    end.
Qed.

(** C9.  [queryMx] starts the MX lookup and delivers each native
    [{preference, exchange}] of a fulfilled lookup as [{priority, exchange}],
    [querySrv] the SRV lookup and each native
    [{priority, weight, port, target}] as [{priority, weight, port, name}],
    field values unchanged and in the resolver's order; the code is the one
    of the sub-query, unchanged: [0] for a fulfilled lookup, [EAI_NODATA] or
    [UNKNOWN] (with no records) for a rejected one. *)
Theorem C9_mx_srv_record_shapes (name : string) :
  let priority_exchange (m : Deno.MXRecord) :=
    Js.Obj [("priority", Js.Num (Deno.preference m));
            ("exchange", Js.Str (Deno.exchange m))] in
  let priority_weight_port_name (s : Deno.SRVRecord) :=
    Js.Obj [("priority", Js.Num (Deno.priority s));
            ("weight", Js.Num (Deno.weight s));
            ("port", Js.Num (Deno.port s));
            ("name", Js.Str (Deno.target s))] in
  (sync_events (queryMx codeMap_get resolveDns name)
   = [Lookup name Deno.MX]
   /\ (exists r : QueryResult Deno.MX,
         query codeMap_get resolveDns name Deno.MX = Deno.Fulfilled r
         /\ delivered (queryMx codeMap_get resolveDns name)
            = [(code r, map priority_exchange (ret r))])
   /\ match resolveDns name Deno.MX with
      | Deno.Fulfilled native =>
          delivered (queryMx codeMap_get resolveDns name)
          = [(0%Z, map priority_exchange native)]
      | Deno.Rejected (Deno.NotFound _) =>
          delivered (queryMx codeMap_get resolveDns name)
          = [(codeMap_get "EAI_NODATA", [])]
      | Deno.Rejected (Deno.Other _) =>
          delivered (queryMx codeMap_get resolveDns name)
          = [(codeMap_get "UNKNOWN", [])]
      end)
  /\
  (sync_events (querySrv codeMap_get resolveDns name)
   = [Lookup name Deno.SRV]
   /\ (exists r : QueryResult Deno.SRV,
         query codeMap_get resolveDns name Deno.SRV = Deno.Fulfilled r
         /\ delivered (querySrv codeMap_get resolveDns name)
            = [(code r, map priority_weight_port_name (ret r))])
   /\ match resolveDns name Deno.SRV with
      | Deno.Fulfilled native =>
          delivered (querySrv codeMap_get resolveDns name)
          = [(0%Z, map priority_weight_port_name native)]
      | Deno.Rejected (Deno.NotFound _) =>
          delivered (querySrv codeMap_get resolveDns name)
          = [(codeMap_get "EAI_NODATA", [])]
      | Deno.Rejected (Deno.Other _) =>
          delivered (querySrv codeMap_get resolveDns name)
          = [(codeMap_get "UNKNOWN", [])]
      end).
Proof.
  cbv zeta.
  split; (split; [reflexivity|]); split.
  1, 3: eexists; (split; [apply query_fulfilled|]);
    unfold delivered, queryMx, querySrv; cbn [sync_events async_events app];
    rewrite query_fulfilled; reflexivity.
  all: unfold delivered, queryMx, querySrv;
    cbn [sync_events async_events app]; rewrite query_fulfilled;
    match goal with
    | |- context [resolveDns ?n ?t] =>
        destruct (resolveDns n t) as [native|[msg|msg]]; reflexivity
    end.
Qed.

(** C10.  For a family other than [0], [4] and [6], [getaddrinfo] selects
    no record type and starts no lookup; it still returns [0] and calls
    [req.oncomplete] exactly once, with [EAI_NODATA] and no address. *)
Theorem C10_other_family_no_lookup
    (hostname : string) (family hints : Z) (verbatim : bool)
    (schedule : list nat) :
  family <> 0%Z -> family <> 4%Z -> family <> 6%Z ->
  let c := getaddrinfo isWindows isIPv4 codeMap_get resolveDns
             hostname family hints verbatim schedule in
  recordTypes family = []
  /\ lookups c = []
  /\ completion c = Js.Return 0%Z
  /\ oncomplete_calls c = 1%nat
  /\ delivered c = [(codeMap_get "EAI_NODATA", [])].
Proof.
  intros H0 H4 H6. cbv zeta.
  assert (Hr : recordTypes family = []).
  { unfold recordTypes.
    apply Z.eqb_neq in H0, H4, H6. now rewrite H0, H4, H6. }
  assert (Hd : delivered (getaddrinfo isWindows isIPv4 codeMap_get resolveDns
                            hostname family hints verbatim schedule)
               = [(codeMap_get "EAI_NODATA", [])]).
  { rewrite delivered_getaddrinfo, Hr. cbn.
    rewrite Array_sort_nil.
    now destruct verbatim, (isWindows && (hostname =? "localhost")%string). }
  repeat split; try assumption.
  - unfold lookups, getaddrinfo. cbn [sync_events async_events].
    now rewrite Hr.
  - now rewrite oncomplete_calls_delivered, Hd.
Qed.

End Claims.

(** ** The binding on the concrete host *)

(** C1, as stated, fails.  On Windows, [getaddrinfo] for "localhost" with
    family [6] merges the one address "::1", so the code is [0]; the loopback
    filter then drops that address, and [req.oncomplete] receives code [0]
    with an empty sequence, where the claim asks for [EAI_NODATA]. *)
Lemma C1_counterexample :
  Host.merged_addresses "localhost" (Loop.settle_order [] (recordTypes 6))
  = ["::1"]
  /\ delivered (Host.getaddrinfo true "localhost" 6 0 false [])
     = [(0%Z, [])]
  /\ Host.codeMap_get "EAI_NODATA" <> 0%Z.
Proof.
  split; [reflexivity | split; [vm_compute; reflexivity | discriminate]].
Qed.

(** C3: the claim's stable partition is not what the code does on V8.  The
    lookup of "example.test" with family [4] merges two IPv4 addresses; with
    [verbatim] false they are delivered in the opposite order, since the
    comparison function answers [-1] for two IPv4 addresses whichever comes
    first. *)
Lemma C3_ipv4_addresses_reversed :
  Host.merged_addresses "example.test" (Loop.settle_order [] (recordTypes 4))
  = ["93.184.216.34"; "93.184.216.35"]
  /\ Host.isIPv4 "93.184.216.34" = true
  /\ Host.isIPv4 "93.184.216.35" = true
  /\ compare_addresses Host.isIPv4 "93.184.216.34" "93.184.216.35" = (-1)%Z
  /\ compare_addresses Host.isIPv4 "93.184.216.35" "93.184.216.34" = (-1)%Z
  /\ delivered (Host.getaddrinfo false "example.test" 4 0 false [])
     = [(0%Z, ["93.184.216.35"; "93.184.216.34"])].
Proof.
  repeat split; vm_compute; reflexivity.
Qed.

(** C4, as stated, fails.  On Windows, with [verbatim] true, [getaddrinfo]
    for "localhost" merges "127.0.0.1" and "::1" and delivers "127.0.0.1"
    alone: the loopback filter is applied although [verbatim] is set. *)
Lemma C4_counterexample :
  Host.merged_addresses "localhost" (Loop.settle_order [] (recordTypes 0))
  = ["127.0.0.1"; "::1"]
  /\ delivered (Host.getaddrinfo true "localhost" 0 0 true [])
     = [(0%Z, ["127.0.0.1"])].
Proof.
  split; vm_compute; reflexivity.
Qed.


(** C10 at family [5]. *)
Lemma C10_witness :
  (5 <> 0 /\ 5 <> 4 /\ 5 <> 6)%Z
  /\
  let c := Host.getaddrinfo true "localhost" 5 0 false [] in
  recordTypes 5 = []
  /\ lookups c = []
  /\ completion c = Js.Return 0%Z
  /\ oncomplete_calls c = 1%nat
  /\ delivered c = [(Host.codeMap_get "EAI_NODATA", [])].
Proof.
  split; [lia|].
  apply (@C10_other_family_no_lookup true Host.isIPv4 Host.codeMap_get
           Host.resolveDns V8.engine "localhost" 5 0 false []); lia.
Defined.

(** The MX scenario of the specification. *)
Example queryMx_scenario :
  Host.resolveDns "example.test" Deno.MX
  = Deno.Fulfilled
      [{| Deno.preference := 10; Deno.exchange := "mail.example.test" |}]
  /\ delivered (queryMx Host.codeMap_get Host.resolveDns "example.test")
     = [(0%Z, [Js.Obj [("priority", Js.Num 10);
                       ("exchange", Js.Str "mail.example.test")]])].
Proof. split; reflexivity. Qed.

(** A lookup that fails for an unclassified reason reaches the caller of
    [queryMx] as the code [UNKNOWN], through [req.oncomplete]. *)
Example queryMx_unknown :
  let c := queryMx Host.codeMap_get Host.resolveDns "unreachable.test" in
  completion c = Js.Return 0%Z
  /\ delivered c = [(Host.codeMap_get "UNKNOWN", [])].
Proof. split; reflexivity. Qed.

(** * Further properties of the binding *)

Section MoreProperties.

Variable isWindows : bool.
Variable isIPv4 : string -> bool.
Variable codeMap_get : string -> Z.
Variable resolveDns : Deno.Resolver.
Context {engine : Js.ArraySort}.


(** [queryAny] reports [EAI_NODATA] exactly when none of its seven lookups
    yields a record, and [0] otherwise; the code [UNKNOWN] of a failed
    sub-query is never passed on. *)
Theorem queryAny_code_partial_success (name : string) (schedule : list nat) :
  map fst (delivered (queryAny codeMap_get resolveDns name schedule))
  = [if forallb (fun t => no_records (records_of resolveDns name t))
                queryAny_types
     then codeMap_get "EAI_NODATA" else 0%Z].
Proof.
  rewrite delivered_queryAny. cbn [map fst].
  rewrite (aggregate_code_Permutation codeMap_get
             (merged_records_Permutation codeMap_get resolveDns name
                schedule)).
  rewrite aggregate_code_flat_map.
  rewrite (forallb_pointwise _
             (fun t => no_records (records_of resolveDns name t)));
    [reflexivity|].
  intro t. now destruct (records_of resolveDns name t).
Qed.

(** The order in which the lookups of [getaddrinfo] settle decides nothing
    but the order of the delivered addresses: two runs that differ in the
    schedule alone deliver the same code and the same addresses, each as
    often. *)
Theorem getaddrinfo_schedule_changes_order_only
    (hostname : string) (family hints : Z) (verbatim : bool)
    (schedule schedule' : list nat) :
  exists (err : Z) (addresses addresses' : list string),
    delivered (getaddrinfo isWindows isIPv4 codeMap_get resolveDns
                 hostname family hints verbatim schedule)
    = [(err, addresses)]
    /\ delivered (getaddrinfo isWindows isIPv4 codeMap_get resolveDns
                    hostname family hints verbatim schedule')
       = [(err, addresses')]
    /\ Permutation addresses addresses'.
Proof.
  destruct (getaddrinfo_delivers isWindows isIPv4 codeMap_get resolveDns
              hostname family hints verbatim schedule)
    as (addresses & H & Hp).
  destruct (getaddrinfo_delivers isWindows isIPv4 codeMap_get resolveDns
              hostname family hints verbatim schedule')
    as (addresses' & H' & Hp').
  exists (aggregate_code codeMap_get
            (flat_map (addresses_of resolveDns hostname)
                      (recordTypes family))), addresses, addresses'.
  repeat split; try assumption.
  etransitivity; [exact Hp | symmetry; exact Hp'].
Qed.

(** Likewise for [queryAny]: the schedule decides the order of the
    delivered records and nothing else. *)
Theorem queryAny_schedule_changes_order_only
    (name : string) (schedule schedule' : list nat) :
  exists (err : Z) (records records' : list Js.Value),
    delivered (queryAny codeMap_get resolveDns name schedule)
    = [(err, records)]
    /\ delivered (queryAny codeMap_get resolveDns name schedule')
       = [(err, records')]
    /\ Permutation records records'.
Proof.
  rewrite !delivered_queryAny.
  pose proof (merged_records_Permutation codeMap_get resolveDns name
                schedule) as Hp.
  pose proof (merged_records_Permutation codeMap_get resolveDns name
                schedule') as Hp'.
  assert (H : Permutation
                (merged_records codeMap_get resolveDns name
                   (Loop.settle_order schedule queryAny_types))
                (merged_records codeMap_get resolveDns name
                   (Loop.settle_order schedule' queryAny_types)))
    by (etransitivity; [exact Hp | symmetry; exact Hp']).
  do 3 eexists. split; [reflexivity|]. split; [|exact H].
  now rewrite (aggregate_code_Permutation codeMap_get H).
Qed.



(** On Windows, [getaddrinfo] for "localhost" never delivers an address
    that is not an IPv4 literal, whatever the family and [verbatim]. *)
Theorem getaddrinfo_windows_localhost_ipv4_only
    (family hints : Z) (verbatim : bool) (schedule : list nat) :
  Forall (fun call : Z * list string =>
            Forall (fun address => isIPv4 address = true) (snd call))
         (delivered (getaddrinfo true isIPv4 codeMap_get resolveDns
                       "localhost" family hints verbatim schedule)).
Proof.
  rewrite delivered_getaddrinfo. cbn [andb String.eqb Ascii.eqb Bool.eqb].
  repeat constructor. cbn [snd].
  apply Forall_forall. intros a Ha. now apply filter_In in Ha.
Qed.

(** The comparison function of [getaddrinfo] looks at its first argument
    first: it is negative exactly when the first address is an IPv4 literal,
    positive exactly when only the second is, and zero exactly when neither
    is.  So an IPv4 address compares below every address, itself and any
    other IPv4 address included. *)
Theorem compare_addresses_cases (a b : string) :
  ((compare_addresses isIPv4 a b < 0)%Z <-> isIPv4 a = true)
  /\ ((compare_addresses isIPv4 a b > 0)%Z
      <-> isIPv4 a = false /\ isIPv4 b = true)
  /\ (compare_addresses isIPv4 a b = 0%Z
      <-> isIPv4 a = false /\ isIPv4 b = false)
  /\ compare_addresses isIPv4 a a = (if isIPv4 a then (-1)%Z else 0%Z).
Proof.
  unfold compare_addresses.
  destruct (isIPv4 a), (isIPv4 b); repeat split; intros;
    try lia; try discriminate; try tauto;
    match goal with
    | H : _ /\ _ |- _ => destruct H; discriminate
    end.
Qed.

(** When the codes [EAI_NODATA] and [UNKNOWN] are not zero, the code of
    [#query] is zero exactly when the lookup was fulfilled, and a non-zero
    code comes with no records. *)
Theorem query_code_zero_iff_fulfilled (name : string) (t : Deno.RecordType) :
  codeMap_get "EAI_NODATA" <> 0%Z ->
  codeMap_get "UNKNOWN" <> 0%Z ->
  exists r : QueryResult t,
    query codeMap_get resolveDns name t = Deno.Fulfilled r
    /\ (code r = 0%Z
        <-> exists records, resolveDns name t = Deno.Fulfilled records)
    /\ (code r <> 0%Z -> ret r = []).
Proof.
  intros Hn Hu. eexists. split; [apply query_fulfilled|].
  destruct (resolveDns name t) as [records|[msg|msg]]; cbn [code ret];
    (split; [split|]); intros; try reflexivity; try contradiction;
    try (now eexists);
    match goal with
    | H : exists _, _ |- _ => destruct H; discriminate
    end.
Qed.

(** [queryA], [queryAaaa], [queryCname], [queryPtr] and [queryTxt] start
    the one lookup of their record type and deliver its outcome: code [0]
    with the resolver's records, unchanged and in their order, when it is
    fulfilled (also when there are no records), [EAI_NODATA] with no records
    when it is rejected with [NotFound], [UNKNOWN] with no records when it is
    rejected otherwise. *)
Theorem single_queries_deliver_lookup_outcome (name : string) :
  let outcome (t : Deno.RecordType) (shape : Deno.native t -> Js.Value)
    : Z * list Js.Value :=
    match resolveDns name t with
    | Deno.Fulfilled records => (0%Z, map shape records)
    | Deno.Rejected (Deno.NotFound _) => (codeMap_get "EAI_NODATA", [])
    | Deno.Rejected (Deno.Other _) => (codeMap_get "UNKNOWN", [])
    end in
  let entries_array (entries : list string) := Js.Arr (map Js.Str entries) in
  (lookups (queryA codeMap_get resolveDns name) = [Lookup name Deno.A]
   /\ delivered (queryA codeMap_get resolveDns name)
      = [outcome Deno.A Js.Str])
  /\ (lookups (queryAaaa codeMap_get resolveDns name)
      = [Lookup name Deno.AAAA]
      /\ delivered (queryAaaa codeMap_get resolveDns name)
         = [outcome Deno.AAAA Js.Str])
  /\ (lookups (queryCname codeMap_get resolveDns name)
      = [Lookup name Deno.CNAME]
      /\ delivered (queryCname codeMap_get resolveDns name)
         = [outcome Deno.CNAME Js.Str])
  /\ (lookups (queryPtr codeMap_get resolveDns name)
      = [Lookup name Deno.PTR]
      /\ delivered (queryPtr codeMap_get resolveDns name)
         = [outcome Deno.PTR Js.Str])
  /\ (lookups (queryTxt codeMap_get resolveDns name)
      = [Lookup name Deno.TXT]
      /\ delivered (queryTxt codeMap_get resolveDns name)
         = [outcome Deno.TXT entries_array]).
Proof.
  cbv zeta.
  repeat split;
    unfold lookups, delivered, queryA, queryAaaa, queryCname, queryPtr,
      queryTxt;
    cbn [sync_events async_events app]; rewrite query_fulfilled;
    match goal with
    | |- context [resolveDns name ?t] =>
        destruct (resolveDns name t) as [records|[msg|msg]]; reflexivity
    end.
Qed.

(** [queryA] and [getaddrinfo] with family [4] start the same lookup and
    read its outcome differently.  For a fulfilled lookup both carry the
    resolver's addresses, but [getaddrinfo] reports [EAI_NODATA] where
    [queryA] reports [0] if there are none; for a rejected lookup
    [getaddrinfo] reports [EAI_NODATA] whatever the reason, where [queryA]
    tells [NotFound] from the rest. *)
Theorem queryA_and_getaddrinfo_read_one_lookup
    (hostname : string) (hints : Z) (schedule : list nat) :
  let loopback := isWindows && (hostname =? "localhost")%string in
  let g := getaddrinfo isWindows isIPv4 codeMap_get resolveDns
             hostname 4 hints true schedule in
  let q := queryA codeMap_get resolveDns hostname in
  lookups g = [Lookup hostname Deno.A]
  /\ lookups q = [Lookup hostname Deno.A]
  /\ match resolveDns hostname Deno.A with
     | Deno.Fulfilled records =>
         delivered q = [(0%Z, map Js.Str records)]
         /\ delivered g
            = [(aggregate_code codeMap_get records,
                if loopback then filter isIPv4 records else records)]
     | Deno.Rejected e =>
         delivered q
         = [(if Deno.instanceof_NotFound e
             then codeMap_get "EAI_NODATA" else codeMap_get "UNKNOWN", [])]
         /\ delivered g = [(codeMap_get "EAI_NODATA", [])]
     end.
Proof.
  cbv zeta. split; [|split].
  - unfold lookups, getaddrinfo. cbn [sync_events async_events].
    change (recordTypes 4) with [addrA].
    unfold Loop.settle_order. cbn [List.length Loop.settle_turns].
    rewrite Nat.mod_1_r. reflexivity.
  - unfold lookups, queryA. cbn [sync_events async_events app].
    rewrite query_fulfilled. reflexivity.
  - rewrite delivered_getaddrinfo.
    change (recordTypes 4) with [addrA].
    unfold Loop.settle_order. cbn [List.length Loop.settle_turns].
    rewrite Nat.mod_1_r. cbn [nth Loop.remove_nth].
    rewrite merged_addresses_flat_map. cbn [flat_map]. rewrite app_nil_r.
    unfold addresses_of, resolveAddress, delivered, queryA.
    cbn [sync_events async_events app]. rewrite query_fulfilled.
    destruct (resolveDns hostname Deno.A) as [records|[msg|msg]];
      cbn; split; try reflexivity;
      now destruct (isWindows && (hostname =? "localhost")%string).
Qed.

(** [queryAny] starts its seven lookups, all for the given name, before it
    returns, and calls [req.oncomplete] only after every one of them has
    settled, in whatever order. *)
Theorem queryAny_dispatch_and_join (name : string) (schedule : list nat) :
  let c := queryAny codeMap_get resolveDns name schedule in
  sync_events c
  = [Lookup name Deno.A; Lookup name Deno.AAAA; Lookup name Deno.CNAME;
     Lookup name Deno.MX; Lookup name Deno.PTR; Lookup name Deno.SRV;
     Lookup name Deno.TXT]
  /\ exists (order : list Deno.RecordType) (err : Z)
            (records : list Js.Value),
       Permutation order queryAny_types
       /\ async_events c = map (fun t => Settle t) order
                           ++ [OnComplete err records].
Proof.
  cbv zeta. split; [reflexivity|].
  exists (Loop.settle_order schedule queryAny_types).
  unfold queryAny, queryAny_complete. cbn [async_events].
  do 2 eexists. split; [|reflexivity].
  apply LoopFacts.settle_order_Permutation.
Qed.

(** Every record [queryAny] delivers is a native record of one of its
    lookups, tagged: its ["type"] property names the record type of the
    lookup it came from.  And no native record is left out. *)
Theorem queryAny_records_are_tagged (name : string) (schedule : list nat) :
  exists (err : Z) (records : list Js.Value),
    delivered (queryAny codeMap_get resolveDns name schedule)
    = [(err, records)]
    /\ Forall
         (fun record =>
            exists (t : Deno.RecordType) (native : Deno.native t),
              In native (records_of resolveDns name t)
              /\ record = any_record t native
              /\ get_property record "type" = Some (Js.Str (type_name t)))
         records
    /\ forall (t : Deno.RecordType) (native : Deno.native t),
         In native (records_of resolveDns name t) ->
         In (any_record t native) records.
Proof.
  rewrite delivered_queryAny.
  pose proof (merged_records_Permutation codeMap_get resolveDns name
                schedule) as Hp.
  do 2 eexists. split; [reflexivity|]. split.
  - apply Forall_forall. intros record Hin.
    apply (Permutation_in _ Hp) in Hin.
    apply in_flat_map in Hin. destruct Hin as (t & _ & Hin).
    apply in_map_iff in Hin. destruct Hin as (native & <- & Hin).
    exists t, native. repeat split; [exact Hin|].
    destruct t; reflexivity.
  - intros t native Hin.
    apply (Permutation_in _ (Permutation_sym Hp)).
    apply in_flat_map. exists t. split.
    + destruct t; cbn; tauto.
    + now apply in_map.
Qed.

(** The tag tells the record types apart: records that [queryAny] builds
    for different record types are never equal. *)
Theorem any_record_type_discriminates
    (t t' : Deno.RecordType) (native : Deno.native t)
    (native' : Deno.native t') :
  any_record t native = any_record t' native' -> t = t'.
Proof.
  intro H.
  assert (Ht : get_property (any_record t native) "type"
               = get_property (any_record t' native') "type")
    by now rewrite H.
  destruct t, t'; try reflexivity; discriminate Ht.
Qed.

Lemma map_Str_injective (l l' : list string) :
  map Js.Str l = map Js.Str l' -> l = l'.
Proof.
  revert l'. induction l as [|x l IH]; intros [|x' l'] H;
    try discriminate; [reflexivity|].
  injection H as Hx Hl. now rewrite Hx, (IH _ Hl).
Qed.

(** Tagging loses nothing: within one record type, equal delivered records
    come from equal native records. *)
Theorem any_record_injective (t : Deno.RecordType)
    (native native' : Deno.native t) :
  any_record t native = any_record t native' -> native = native'.
Proof.
  destruct t; cbn [any_record]; intro H; try (now injection H).
  - destruct native, native'. cbn in H. injection H as -> ->. reflexivity.
  - destruct native, native'. cbn in H. injection H as -> -> -> ->.
    reflexivity.
  - injection H as H. now apply map_Str_injective.
Qed.

Lemma map_injective (X Y : Type) (f : X -> Y) (l l' : list X) :
  (forall x y, f x = f y -> x = y) -> map f l = map f l' -> l = l'.
Proof.
  intro Hf. revert l'.
  induction l as [|x l IH]; intros [|x' l'] H; try discriminate;
    [reflexivity|].
  cbn in H. injection H as Hx Hl. now rewrite (Hf _ _ Hx), (IH _ Hl).
Qed.

(** The renaming of [queryMx] and the restructuring of [querySrv] lose
    nothing: when the results delivered for two names are equal, the two
    lookups yielded equal native records. *)
Theorem queryMx_querySrv_lossless (name name' : string) :
  (delivered (queryMx codeMap_get resolveDns name)
   = delivered (queryMx codeMap_get resolveDns name') ->
   records_of resolveDns name Deno.MX = records_of resolveDns name' Deno.MX)
  /\
  (delivered (querySrv codeMap_get resolveDns name)
   = delivered (querySrv codeMap_get resolveDns name') ->
   records_of resolveDns name Deno.SRV
   = records_of resolveDns name' Deno.SRV)
  /\
  (forall mx mx' : list Deno.MXRecord,
     resolveDns name Deno.MX = Deno.Fulfilled mx ->
     resolveDns name' Deno.MX = Deno.Fulfilled mx' ->
     delivered (queryMx codeMap_get resolveDns name)
     = delivered (queryMx codeMap_get resolveDns name') ->
     mx = mx')
  /\
  (forall srv srv' : list Deno.SRVRecord,
     resolveDns name Deno.SRV = Deno.Fulfilled srv ->
     resolveDns name' Deno.SRV = Deno.Fulfilled srv' ->
     delivered (querySrv codeMap_get resolveDns name)
     = delivered (querySrv codeMap_get resolveDns name') ->
     srv = srv').
Proof.
  assert (Hmx : delivered (queryMx codeMap_get resolveDns name)
                = delivered (queryMx codeMap_get resolveDns name') ->
                records_of resolveDns name Deno.MX
                = records_of resolveDns name' Deno.MX).
  { unfold delivered, queryMx, records_of.
    cbn [sync_events async_events app]. rewrite !query_fulfilled.
    destruct (resolveDns name Deno.MX) as [l|[m|m]],
             (resolveDns name' Deno.MX) as [l'|[m'|m']];
      cbn; intro H; try reflexivity;
      apply (f_equal (fun d : list (Z * list Js.Value) =>
                        match d with
                        | [(_, records)] => records
                        | _ => []
                        end)) in H; cbn in H;
      try (now destruct l); try (now destruct l').
    apply (map_injective _ l l') in H; [exact H|].
    intros [p e] [p' e'] Hf. cbn in Hf. now injection Hf as -> ->. }
  assert (Hsrv : delivered (querySrv codeMap_get resolveDns name)
                 = delivered (querySrv codeMap_get resolveDns name') ->
                 records_of resolveDns name Deno.SRV
                 = records_of resolveDns name' Deno.SRV).
  { unfold delivered, querySrv, records_of.
    cbn [sync_events async_events app]. rewrite !query_fulfilled.
    destruct (resolveDns name Deno.SRV) as [l|[m|m]],
             (resolveDns name' Deno.SRV) as [l'|[m'|m']];
      cbn; intro H; try reflexivity;
      apply (f_equal (fun d : list (Z * list Js.Value) =>
                        match d with
                        | [(_, records)] => records
                        | _ => []
                        end)) in H; cbn in H;
      try (now destruct l); try (now destruct l').
    apply (map_injective _ l l') in H; [exact H|].
    intros [p w o g] [p' w' o' g'] Hf. cbn in Hf.
    now injection Hf as -> -> -> ->. }
  split; [exact Hmx|]. split; [exact Hsrv|]. split.
  - intros mx mx' Hm Hm' H. apply Hmx in H.
    unfold records_of in H. now rewrite Hm, Hm' in H.
  - intros srv srv' Hs Hs' H. apply Hsrv in H.
    unfold records_of in H. now rewrite Hs, Hs' in H.
Qed.

(** What [queryAny] delivers for MX and SRV is what [queryMx] and
    [querySrv] deliver, with the type tag put in front: each object of the
    single-type query is found, tagged, among the records of [queryAny]. *)
Theorem queryAny_includes_tagged_mx_and_srv
    (name : string) (schedule : list nat) :
  exists (err : Z) (records : list Js.Value),
    delivered (queryAny codeMap_get resolveDns name schedule)
    = [(err, records)]
    /\ (exists (code : Z) (objects : list Js.Value),
          delivered (queryMx codeMap_get resolveDns name) = [(code, objects)]
          /\ Forall
               (fun object =>
                  exists fields,
                    object = Js.Obj fields
                    /\ In (Js.Obj (("type", Js.Str "MX") :: fields)) records)
               objects)
    /\ (exists (code : Z) (objects : list Js.Value),
          delivered (querySrv codeMap_get resolveDns name)
          = [(code, objects)]
          /\ Forall
               (fun object =>
                  exists fields,
                    object = Js.Obj fields
                    /\ In (Js.Obj (("type", Js.Str "SRV") :: fields)) records)
               objects).
Proof.
  rewrite delivered_queryAny.
  pose proof (merged_records_Permutation codeMap_get resolveDns name
                schedule) as Hp.
  do 2 eexists. split; [reflexivity|].
  split; do 2 eexists;
    (split;
     [unfold delivered, queryMx, querySrv;
      cbn [sync_events async_events app];
      rewrite query_fulfilled; reflexivity|]);
    apply Forall_forall; intros object Hin;
    apply in_map_iff in Hin; destruct Hin as (native & <- & Hin);
    eexists; (split; [reflexivity|]);
    apply (Permutation_in _ (Permutation_sym Hp)); apply in_flat_map.
  - exists Deno.MX. split; [cbn; tauto|].
    apply in_map_iff. exists native. split; [reflexivity|].
    unfold records_of.
    destruct (resolveDns name Deno.MX) as [r|[m|m]];
      [exact Hin | destruct Hin | destruct Hin].
  - exists Deno.SRV. split; [cbn; tauto|].
    apply in_map_iff. exists native. split; [reflexivity|].
    unfold records_of.
    destruct (resolveDns name Deno.SRV) as [r|[m|m]];
      [exact Hin | destruct Hin | destruct Hin].
Qed.

End MoreProperties.

(** [strerror] answers for the code [-1000] itself: whatever the table of
    [ares.ts] holds for that code is never shown, and every other code gets
    the table's message. *)
Theorem strerror_sentinel_shadows_table (table table' : Z -> string) :
  (forall code : Z, code <> DNS_ESETSRVPENDING -> table code = table' code) ->
  (forall code : Z, strerror table code = strerror table' code)
  /\ strerror table (-1000) = "There are pending queries."
  /\ forall code : Z, code <> (-1000)%Z -> strerror table code = table code.
Proof.
  intro H. repeat split.
  - intro code. unfold strerror.
    destruct (Z.eqb_spec code DNS_ESETSRVPENDING); [reflexivity | now apply H].
  - intros code Hc. unfold strerror.
    destruct (Z.eqb_spec code DNS_ESETSRVPENDING); [contradiction|reflexivity].
Qed.

(** ** Instances on the concrete host *)

Lemma query_code_zero_iff_fulfilled_witness :
  (Host.codeMap_get "EAI_NODATA" <> 0%Z /\ Host.codeMap_get "UNKNOWN" <> 0%Z)
  /\ exists r : QueryResult Deno.MX,
       query Host.codeMap_get Host.resolveDns "example.test" Deno.MX
       = Deno.Fulfilled r
       /\ (code r = 0%Z
           <-> exists records,
                 Host.resolveDns "example.test" Deno.MX
                 = Deno.Fulfilled records)
       /\ (code r <> 0%Z -> ret r = []).
Proof.
  split; [split; discriminate|].
  apply (@query_code_zero_iff_fulfilled Host.codeMap_get Host.resolveDns
           "example.test" Deno.MX); discriminate.
Defined.

Lemma any_record_type_discriminates_witness :
  any_record Deno.A "127.0.0.1" = any_record Deno.A "127.0.0.1"
  /\ Deno.A = Deno.A.
Proof.
  split; [reflexivity|].
  apply (@any_record_type_discriminates Deno.A Deno.A "127.0.0.1"
           "127.0.0.1"); reflexivity.
Defined.

Lemma any_record_injective_witness :
  any_record Deno.TXT ["v=spf1"; "-all"]
  = any_record Deno.TXT ["v=spf1"; "-all"]
  /\ ["v=spf1"; "-all"] = ["v=spf1"; "-all"].
Proof.
  split; [reflexivity|].
  apply (@any_record_injective Deno.TXT ["v=spf1"; "-all"]
           ["v=spf1"; "-all"]); reflexivity.
Defined.

(** The resolver of the host with a second name for "example.test". *)
Definition resolveDns_alias : Deno.Resolver :=
  fun name t =>
    Host.resolveDns
      (if (name =? "mail.test")%string then "example.test" else name) t.

Lemma queryMx_querySrv_lossless_witness :
  delivered (queryMx Host.codeMap_get resolveDns_alias "example.test")
  = delivered (queryMx Host.codeMap_get resolveDns_alias "mail.test")
  /\ records_of resolveDns_alias "example.test" Deno.MX
     = records_of resolveDns_alias "mail.test" Deno.MX.
Proof.
  split; [reflexivity|].
  apply (proj1 (@queryMx_querySrv_lossless Host.codeMap_get resolveDns_alias
                  "example.test" "mail.test")).
  reflexivity.
Defined.

Lemma strerror_sentinel_shadows_table_witness :
  let table (code : Z) := "unknown" in
  let table' (code : Z) :=
    if (code =? -1000)%Z then "Misformatted DNS query" else "unknown" in
  table (-1000)%Z <> table' (-1000)%Z
  /\ (forall code : Z, strerror table code = strerror table' code)
  /\ strerror table (-1000) = "There are pending queries."
  /\ forall code : Z, code <> (-1000)%Z -> strerror table code = table code.
Proof.
  cbv zeta. split; [discriminate|].
  apply (@strerror_sentinel_shadows_table
           (fun _ => "unknown")
           (fun code => if (code =? -1000)%Z
                        then "Misformatted DNS query" else "unknown")).
  intros code Hc. unfold DNS_ESETSRVPENDING in Hc.
  destruct (Z.eqb_spec code (-1000)); [contradiction | reflexivity].
Defined.
